(** * The offline shell cache of the Topview dashboard (sw.js)

    A shallow embedding of the service worker in [sw.js] and of the part of
    the service-worker platform it talks to, followed by the properties of
    the request interception layer.

    The worker is three event handlers.  Each handler body is a short
    synchronous sequence of calls on the event ([waitUntil], [respondWith])
    and on the worker ([skipWaiting]).  The arguments of [waitUntil] and
    [respondWith] are promises: the platform call that makes the promise
    ([caches.open], [fetch], [clients.claim]) is made where the handler
    writes it, and what is chained on it ([then], [catch]) runs once the
    handler has returned.  This is modelled as it is written:

    - [Platform]: settled promises, the origin's cache storage, how a
      request matches a stored response, and the platform calls ([fetch],
      [caches.open], [cache.addAll], [caches.match], [clients.claim]) as
      state-passing computations over a [World];
    - [Worker]: the constants and the three handlers of [sw.js];
    - [Host]: how the platform runs a handler's actions, answers the
      caller of an intercepted request and moves the worker through its
      life cycle. *)

From stdpp Require Import gmap strings list fin_maps pretty.
From Stdlib Require Import ZArith Ascii.

Local Open Scope string_scope.
Local Open Scope list_scope.

(** ** Platform *)

Module Platform.

(** An intercepted request: method, URL and headers.  URLs are written
    relative to the worker's origin, the way [ASSETS] spells them, and
    keep their fragment. *)
Record Request : Type :=
  mkRequest { method : string; url : string; req_headers : list (string * string) }.

(** A response: status, headers, body bytes. *)
Record Response : Type :=
  mkResponse { status : Z; headers : list (string * string); body : string }.

(** The reason a promise rejects with. *)
Inductive Reason : Type :=
| TypeError (message : string)
| DOMException (name : string).

(** A promise, once settled. *)
Inductive Settled (A : Type) : Type :=
| Fulfilled (value : A)
| Rejected (reason : Reason).
Arguments Fulfilled {A} value.
Arguments Rejected {A} reason.

(** What a promise handed to [respondWith] may fulfil with: [fetch]
    yields a response, [caches.match] a response or [undefined]. *)
Inductive JsValue : Type :=
| Resp (r : Response)
| Undefined.

(** One cache: the responses stored for GET requests made from a URL
    alone, as [cache.add] and [cache.addAll] make them (no header of
    their own), keyed by the URL without its fragment.  Two such requests
    for one URL match each other, so a cache holds one response a URL. *)
Abbreviation Cache := (gmap string Response).

(** The origin's cache storage: the named caches in creation order. *)
Abbreviation CacheStorage := (list (string * Cache)).

(** The platform calls the worker made, oldest first. *)
Inductive Effect : Type :=
| NetFetch (req : Request)
| CacheOpen (name : string)
| CacheWrite (name : string) (urls : list string)
| CacheRead (req : Request)
| SkipWaitingSet
| ClientsClaimed.

Record World : Type := mkWorld { storage : CacheStorage; effects : list Effect }.

Definition record_all (es : list Effect) (w : World) : World :=
  {| storage := storage w; effects := effects w ++ es |}.

Definition record (e : Effect) (w : World) : World := record_all [e] w.

Definition with_storage (cs : CacheStorage) (w : World) : World :=
  {| storage := cs; effects := effects w |}.

(** The network, as one run sees it: the outcome of each request. *)
Definition Network : Type := Request -> Settled Response.

(** *** Promises *)

(** An asynchronous computation, run to settlement. *)
Definition Async (A : Type) : Type := World -> Settled A * World.

Definition resolve {A} (a : A) : Async A := fun w => (Fulfilled a, w).

(** What runs when [k] has fulfilled. *)
Definition after {A B} (k : Async A) (f : A -> Async B) : Async B :=
  fun w =>
    match k w with
    | (Fulfilled a, w') => f a w'
    | (Rejected why, w') => (Rejected why, w')
    end.

(** What runs when [k] has rejected. *)
Definition rescue {A} (k : Async A) (h : Reason -> Async A) : Async A :=
  fun w =>
    match k w with
    | (Fulfilled a, w') => (Fulfilled a, w')
    | (Rejected why, w') => h why w'
    end.

(** A promise, as the expression that makes it: evaluated where the
    handler writes it, it makes its platform call on the world as it is
    then, and leaves what remains to be run after the handler returned. *)
Definition Promise (A : Type) : Type := World -> Async A * World.

(** [op(...)]: the call is made now, its outcome is what the promise
    settles with. *)
Definition call {A} (op : Async A) : Promise A :=
  fun w => let (out, w') := op w in (fun w'' => (out, w''), w').

(** [p.then(f)] *)
Definition and_then {A B} (p : Promise A) (f : A -> Async B) : Promise B :=
  fun w => let (k, w') := p w in (after k f, w').

(** [p.catch(h)] *)
Definition catch {A} (p : Promise A) (h : Reason -> Async A) : Promise A :=
  fun w => let (k, w') := p w in (rescue k h, w').

(** A promise of a response seen as a promise of a value. *)
Definition as_value (p : Promise Response) : Promise JsValue :=
  and_then p (fun r => resolve (Resp r)).

Notation "p >>= f" := (and_then p f) (at level 50, left associativity).

(** *** Header names and URLs *)

Definition lower_ascii (c : ascii) : ascii :=
  let n := nat_of_ascii c in
  if (65 <=? n)%nat && (n <=? 90)%nat then ascii_of_nat (n + 32) else c.

Fixpoint lower (s : string) : string :=
  match s with
  | EmptyString => EmptyString
  | String c s' => String (lower_ascii c) (lower s')
  end.

(** The URL without its fragment. *)
Fixpoint strip_fragment (u : string) : string :=
  match u with
  | EmptyString => EmptyString
  | String c u' => if Ascii.eqb c "#" then EmptyString else String c (strip_fragment u')
  end.

Definition is_space (c : ascii) : bool := Ascii.eqb c " " || Ascii.eqb c "009".

Fixpoint trim_left (s : string) : string :=
  match s with
  | EmptyString => EmptyString
  | String c s' => if is_space c then trim_left s' else s
  end.

Definition trim (s : string) : string :=
  String.rev (trim_left (String.rev (trim_left s))).

Fixpoint split_on (sep : ascii) (s : string) : list string :=
  match s with
  | EmptyString => [EmptyString]
  | String c s' =>
      if Ascii.eqb c sep then EmptyString :: split_on sep s'
      else match split_on sep s' with
           | [] => [String c EmptyString]
           | x :: xs => String c x :: xs
           end
  end.

(** Header names are compared without regard to case. *)
Definition same_name (a b : string) : bool := String.eqb (lower a) (lower b).

(** The values of the headers of that name, joined; [None] without one. *)
Definition combined_value (hs : list (string * string)) (name : string) : option string :=
  match map snd (List.filter (fun h => same_name (fst h) name) hs) with
  | [] => None
  | vs => Some (String.concat ", " vs)
  end.

(** The header names a response's [Vary] lists, in lower case. *)
Definition vary_fields (r : Response) : list string :=
  flat_map
    (fun h =>
       if same_name (fst h) "vary" then
         List.filter (fun f => negb (String.eqb f ""))
           (map (fun f => lower (trim f)) (split_on "," (snd h)))
       else [])
    (headers r).

(** *** Cache storage *)

Fixpoint storage_get (name : string) (cs : CacheStorage) : option Cache :=
  match cs with
  | [] => None
  | (n, c) :: rest => if decide (n = name) then Some c else storage_get name rest
  end.

Fixpoint storage_set (name : string) (c : Cache) (cs : CacheStorage) : CacheStorage :=
  match cs with
  | [] => [(name, c)]
  | (n, c0) :: rest =>
      if decide (n = name) then (n, c) :: rest else (n, c0) :: storage_set name c rest
  end.

(** Open or create: an existing cache is left as it is, a new one is
    created empty, after the existing ones. *)
Definition storage_open (name : string) (cs : CacheStorage) : CacheStorage :=
  match storage_get name cs with
  | Some _ => cs
  | None => cs ++ [(name, ∅)]
  end.

(** The header list of the request a response was stored for. *)
Definition stored_request_headers : list (string * string) := [].

(** A stored response answers a request for its URL unless its [Vary]
    says otherwise: it lists [*], or a header that the request and the
    request the response was stored for do not agree on. *)
Definition vary_permits (r : Response) (req : Request) : bool :=
  forallb
    (fun f =>
       negb (String.eqb f "*")
       && bool_decide (combined_value stored_request_headers f
                       = combined_value (req_headers req) f))
    (vary_fields r).

(** [cache.match]: the URLs are compared without their fragments. *)
Definition cache_match (req : Request) (c : Cache) : option Response :=
  match c !! strip_fragment (url req) with
  | Some r => if vary_permits r req then Some r else None
  | None => None
  end.

(** [CacheStorage.match]: the caches are searched in creation order and
    the first response that matches is the answer. *)
Fixpoint storage_match (req : Request) (cs : CacheStorage) : option Response :=
  match cs with
  | [] => None
  | (_, c) :: rest =>
      match cache_match req c with
      | Some r => Some r
      | None => storage_match req rest
      end
  end.

Definition put_all (entries : list (string * Response)) (c : Cache) : Cache :=
  foldl (fun acc e => <[fst e := snd e]> acc) c entries.

(** *** Platform calls *)

(** The request [cache.addAll] makes from a URL. *)
Definition GET (u : string) : Request :=
  {| method := "GET"; url := u; req_headers := [] |}.

(** What a bulk add accepts: an ok response (status 200 to 299) that is
    not a partial one and whose [Vary] does not list [*]. *)
Definition acceptable (r : Response) : bool :=
  (200 <=? status r)%Z && (status r <=? 299)%Z && negb (status r =? 206)%Z
  && negb (bool_decide ("*" ∈ vary_fields r)).

(** All responses of a bulk add, or the rejection of the bulk add: a
    failed fetch and a response that is not acceptable both reject it. *)
Fixpoint gather (outcomes : list (Settled Response)) : Settled (list Response) :=
  match outcomes with
  | [] => Fulfilled []
  | Rejected _ :: _ => Rejected (TypeError "Failed to fetch")
  | Fulfilled r :: rest =>
      if acceptable r then
        match gather rest with
        | Fulfilled rs => Fulfilled (r :: rs)
        | Rejected why => Rejected why
        end
      else Rejected (TypeError "Request failed")
  end.

Section WithNetwork.
Variable net : Network.

(** [fetch(request)] *)
Definition fetch (req : Request) : Async Response :=
  fun w => (net req, record (NetFetch req) w).

(** [caches.open(name)]; the cache object is a handle on the named cache
    of the storage. *)
Definition caches_open (name : string) : Async string :=
  fun w =>
    (Fulfilled name,
     record (CacheOpen name) (with_storage (storage_open name (storage w)) w)).

(** [cache.addAll(urls)]: every URL is fetched with a GET; the responses
    are stored, each replacing what was stored under its URL, only when
    every fetch gave an acceptable response and no two of the URLs are
    the same apart from their fragments.  (The handle comes from
    [caches.open], so the cache exists.) *)
Definition cache_addAll (cache : string) (urls : list string) : Async unit :=
  fun w =>
    let w1 := record_all (map (fun u => NetFetch (GET u)) urls) w in
    match gather (map (fun u => net (GET u)) urls) with
    | Rejected why => (Rejected why, w1)
    | Fulfilled rs =>
        if bool_decide (NoDup (map strip_fragment urls)) then
          let c := default ∅ (storage_get cache (storage w1)) in
          (Fulfilled tt,
           record (CacheWrite cache urls)
             (with_storage
                (storage_set cache (put_all (zip (map strip_fragment urls) rs) c)
                   (storage w1)) w1))
        else (Rejected (DOMException "InvalidStateError"), w1)
    end.

(** [caches.match(request)]: fulfils with the first stored response that
    matches, or with [undefined] when no cache has one; a request that is
    not a GET matches nothing. *)
Definition caches_match (req : Request) : Async JsValue :=
  fun w =>
    (Fulfilled
       (if decide (method req = "GET") then
          match storage_match req (storage w) with
          | Some r => Resp r
          | None => Undefined
          end
        else Undefined),
     record (CacheRead req) w).

(** [clients.claim()] *)
Definition clients_claim : Async unit :=
  fun w => (Fulfilled tt, record ClientsClaimed w).

End WithNetwork.

End Platform.

(** ** The worker: sw.js *)

Module Worker.
Import Platform.

Definition CACHE_NAME : string := "topview-shell-v1".

Definition ASSETS : list string := ["/"; "/index.html"; "/manifest.json"].

(** What a handler body does, in the order it is written, with its event
    and with the worker. *)
Inductive Action : Type :=
| WaitUntil (p : Promise unit)
| RespondWith (p : Promise JsValue)
| SkipWaiting.

Section Handlers.
Variable net : Network.

(** [self.addEventListener('install', ...)] *)
Definition on_install : list Action :=
  [ WaitUntil (call (caches_open CACHE_NAME)
               >>= fun cache => cache_addAll net cache ASSETS);
    SkipWaiting ].

(** [self.addEventListener('activate', ...)] *)
Definition on_activate : list Action :=
  [ WaitUntil (call clients_claim) ].

(** [self.addEventListener('fetch', ...)]: network first, fallback to the
    cache. *)
Definition on_fetch (request : Request) : list Action :=
  if decide (method request ≠ "GET") then []
  else [ RespondWith (catch (as_value (call (fetch net request)))
                            (fun _ => caches_match request)) ].

End Handlers.

End Worker.

(** ** The host: running the handlers *)

Module Host.
Import Platform Worker.

(** The promises the event was asked to wait for. *)
Fixpoint awaited (acts : list Action) : list (Promise unit) :=
  match acts with
  | [] => []
  | WaitUntil p :: rest => p :: awaited rest
  | _ :: rest => awaited rest
  end.

(** The handler body runs: each statement in turn, on the world the
    statements before it left.  A promise given to [waitUntil] or to
    [respondWith] is evaluated there, which makes its platform call;
    [skipWaiting] takes effect there.  What the promises still have to
    run is kept for after the body: the awaited ones, and the answer (the
    first one given to [respondWith]). *)
Fixpoint run_body (acts : list Action) (w : World)
  : list (Async unit) * option (Async JsValue) * World :=
  match acts with
  | [] => ([], None, w)
  | WaitUntil p :: rest =>
      let (k, w1) := p w in
      let '(ks, ans, w2) := run_body rest w1 in
      (k :: ks, ans, w2)
  | RespondWith p :: rest =>
      let (k, w1) := p w in
      let '(ks, ans, w2) := run_body rest w1 in
      (ks, Some k, w2)
  | SkipWaiting :: rest => run_body rest (record SkipWaitingSet w)
  end.

(** Settle the awaited promises; [true] when none rejected. *)
Fixpoint settle_all (ks : list (Async unit)) (w : World) : bool * World :=
  match ks with
  | [] => (true, w)
  | k :: rest =>
      match k w with
      | (Fulfilled _, w') => settle_all rest w'
      | (Rejected _, w') => (false, snd (settle_all rest w'))
      end
  end.

(** A life-cycle event: the handler body runs, then the event waits for
    the promises it was given. *)
Definition run_lifecycle (acts : list Action) (w : World) : bool * World :=
  let '(ks, _, w1) := run_body acts w in settle_all ks w1.

Inductive InstallResult : Type := Installed | InstallFailure.

Definition dispatch_install (net : Network) (w : World) : InstallResult * World :=
  let (ok, w') := run_lifecycle (on_install net) w in
  (if ok then Installed else InstallFailure, w').

Definition dispatch_activate (w : World) : World :=
  snd (run_lifecycle on_activate w).

(** The network error the caller gets when the worker gave no response. *)
Definition NetworkUnavailable : Reason := TypeError "Failed to fetch".

(** An intercepted request.  When the handler returned without answering,
    the host performs the request itself, as if there were no worker.
    When it answered with a promise, the caller gets the response the
    promise fulfils with, and a network error when it fulfils with
    anything else or rejects. *)
Definition dispatch_fetch (net : Network) (req : Request) (w : World)
  : Settled Response * World :=
  let '(_, ans, w0) := run_body (on_fetch net req) w in
  match ans with
  | None => (net req, w0)
  | Some k =>
      match k w0 with
      | (Fulfilled (Resp r), w') => (Fulfilled r, w')
      | (Fulfilled Undefined, w') => (Rejected NetworkUnavailable, w')
      | (Rejected _, w') => (Rejected NetworkUnavailable, w')
      end
  end.

(** *** Life cycle *)

Inductive Phase : Type := UNINSTALLED | INSTALLED | ACTIVE.

Record Layer : Type := mkLayer { phase : Phase; world : World }.

Inductive Event : Type :=
| Install
| Activate
| Fetch (req : Request).

(** A failed install leaves the worker uninstalled; requests are
    intercepted only once the worker is active. *)
Definition step (net : Network) (ev : Event) (s : Layer)
  : Layer * option (Settled Response) :=
  match ev, phase s with
  | Install, UNINSTALLED =>
      match dispatch_install net (world s) with
      | (Installed, w') => ({| phase := INSTALLED; world := w' |}, None)
      | (InstallFailure, w') => ({| phase := UNINSTALLED; world := w' |}, None)
      end
  | Activate, INSTALLED =>
      ({| phase := ACTIVE; world := dispatch_activate (world s) |}, None)
  | Fetch req, ACTIVE =>
      let (out, w') := dispatch_fetch net req (world s) in
      ({| phase := ACTIVE; world := w' |}, Some out)
  | Fetch req, _ => (s, Some (net req))
  | _, _ => (s, None)
  end.

End Host.

(** ** Vocabulary of the properties *)

Module Terms.
Import Platform Worker Host.

(** The promise [on_install] hands to [waitUntil]: the population of the
    cache namespace with the shell assets. *)
Definition population (net : Network) : Promise unit :=
  call (caches_open CACHE_NAME) >>= fun cache => cache_addAll net cache ASSETS.

(** The promise [on_fetch] hands to [respondWith] for a GET request. *)
Definition network_first (net : Network) (req : Request) : Promise JsValue :=
  catch (as_value (call (fetch net req))) (fun _ => caches_match req).

(** A promise evaluated and run to settlement, nothing in between. *)
Definition settle {A} (p : Promise A) : Async A :=
  fun w => let (k, w') := p w in k w'.

(** The entry of the cache namespace for a URL, if the namespace exists and
    has one. *)
Definition namespace_entry (cs : CacheStorage) (u : string) : option Response :=
  storage_get CACHE_NAME cs ≫= fun c => c !! u.

(** The first response stored for a URL in a cache of the storage,
    whatever its [Vary]. *)
Fixpoint storage_lookup (u : string) (cs : CacheStorage) : option Response :=
  match cs with
  | [] => None
  | (_, c) :: rest =>
      match c !! u with
      | Some r => Some r
      | None => storage_lookup u rest
      end
  end.

(** The caches created before the named one. *)
Fixpoint created_before (name : string) (cs : CacheStorage) : CacheStorage :=
  match cs with
  | [] => []
  | (n, c) :: rest =>
      if decide (n = name) then [] else (n, c) :: created_before name rest
  end.

(** A sequence of events, the responses dropped. *)
Definition run (net : Network) (evs : list Event) (s : Layer) : Layer :=
  foldl (fun acc ev => fst (step net ev acc)) s evs.

End Terms.

(** ** Scenarios *)

Module Scenario.
Import Platform Worker Host Terms.

Definition page (b : string) : Response :=
  {| status := 200; headers := [("content-type", "text/html")]; body := b |}.

(** No request gets through. *)
Definition offline : Network := fun _ => Rejected (TypeError "offline").

(** The first deployment: every URL is served. *)
Definition online : Network := fun req => Fulfilled (page ("v1 " +:+ url req)).

(** A later deployment: the main document changed. *)
Definition redeployed : Network :=
  fun req =>
    if decide (url req = "/index.html") then Fulfilled (page "v2 /index.html")
    else online req.

(** The manifest is missing. *)
Definition no_manifest : Network :=
  fun req =>
    if decide (url req = "/manifest.json") then Rejected (TypeError "offline")
    else online req.

(** A server whose answers depend on a header that scripts set. *)
Definition varied (b : string) : Response :=
  {| status := 200;
     headers := [("content-type", "text/html"); ("Vary", "X-Requested-With")];
     body := b |}.

Definition varying : Network := fun req => Fulfilled (varied ("v1 " +:+ url req)).

(** A server that marks the main document as never to be reused. *)
Definition starred : Network :=
  fun req =>
    if decide (url req = "/index.html") then
      Fulfilled {| status := 200; headers := [("Vary", "*")]; body := "v1 /index.html" |}
    else online req.

(** An origin nothing was cached in. *)
Definition fresh : World := {| storage := []; effects := [] |}.

(** An origin in which an earlier version of the worker left its cache. *)
Definition upgraded_from_v0 : World :=
  {| storage :=
       [("topview-shell-v0",
         {["/index.html" := page "v0 /index.html"]} ∪ {["/app.js" := page "v0 /app.js"]})];
     effects := [] |}.

Definition shell_only : World := snd (dispatch_install online fresh).

Definition shell_and_v0 : World := snd (dispatch_install online upgraded_from_v0).

Definition shell_varying : World := snd (dispatch_install varying fresh).

(** A navigation to a place in a page, and a request a script makes with
    a header of its own. *)
Definition navigation (u : string) : Request :=
  {| method := "GET"; url := u; req_headers := [("accept", "text/html")] |}.

Definition scripted (u : string) : Request :=
  {| method := "GET"; url := u;
     req_headers := [("accept", "*/*"); ("x-requested-with", "XMLHttpRequest")] |}.

End Scenario.

(** ** Longer runs *)

Module Runs.
Import Platform Worker Host Terms.

(** A sequence of events, each under the network of its moment. *)
Definition play (script : list (Network * Event)) (s : Layer) : Layer :=
  foldl (fun acc ne => fst (step (fst ne) (snd ne) acc)) s script.

(** The calls of a successful bring-up, in the order they are made. *)
Definition bring_up_trace : list Effect :=
  [CacheOpen CACHE_NAME; SkipWaitingSet]
  ++ map (fun u => NetFetch (GET u)) ASSETS
  ++ [CacheWrite CACHE_NAME ASSETS; ClientsClaimed].

End Runs.

(** ** The dashboard: erp_dashboard_real_estate_and_fitout.jsx

    The state of [ERPApp] and the functions of the component that compute:
    the permission check, the totals, the add handlers, the project shown
    for a transaction and the text of the CSV export.  What is rendered
    and the download of the export are left out.

    Identifiers are integers (literals, and [Date.now()], which the add
    handlers take here as the argument [now]).  Amounts and budgets are
    JavaScript numbers: their type, their arithmetic and their conversion
    to a string are parameters. *)

Module Dashboard.

Module User.
Record t : Type := mk { id : Z; name : string; role : string; email : string }.
End User.

Module Project.
Record t (number : Type) : Type :=
  mk { id : Z; name : string; client : string; status : string; budget : number;
       start : string; end_ : string; engineer : string }.
Arguments mk {number}.
Arguments id {number}.
Arguments name {number}.
End Project.

Module Transaction.
Record t (number : Type) : Type :=
  mk { id : Z; type : string; category : string; amount : number; date : string;
       note : string; projectId : option Z }.
Arguments mk {number}.
Arguments id {number}.
Arguments type {number}.
Arguments category {number}.
Arguments amount {number}.
Arguments date {number}.
Arguments note {number}.
Arguments projectId {number}.
End Transaction.

(** *** Permissions *)

(** The table [perms] of [can]: the own properties of the object, in the
    order they are written. *)
Definition perms : list (string * list string) :=
  [ ("Admin", ["view_all"; "edit_all"; "finance"; "manage_users"]);
    ("Accountant", ["finance"; "view_projects"]);
    ("Engineer", ["view_projects"; "edit_projects"]);
    ("Worker", ["view_own_tasks"]) ].

(** The names every object inherits from [Object.prototype]: [perms[role]]
    is a function or an object for them, not a list. *)
Definition inherited_names : list string :=
  [ "constructor"; "__defineGetter__"; "__defineSetter__"; "hasOwnProperty";
    "__lookupGetter__"; "__lookupSetter__"; "isPrototypeOf"; "propertyIsEnumerable";
    "toString"; "valueOf"; "__proto__"; "toLocaleString" ].

(** What [can] evaluates to: [false], the result of [includes], or
    [undefined] when [perms[role]] is; calling [includes] on an inherited
    property throws. *)
Inductive CanResult : Type :=
| Bool (b : bool)
| NoValue
| TypeErrorThrown.

Definition can (currentUser : option User.t) (action : string) : CanResult :=
  match currentUser with
  | None => Bool false
  | Some u =>
      let role := User.role u in
      match (list_to_map perms : gmap string (list string)) !! role with
      | Some allowed => Bool (bool_decide (action ∈ allowed))
      | None =>
          if bool_decide (role ∈ inherited_names) then TypeErrorThrown else NoValue
      end
  end.

(** [can(action) && ...]: what is guarded is rendered. *)
Definition shown (r : CanResult) : bool :=
  match r with
  | Bool b => b
  | NoValue | TypeErrorThrown => false
  end.

(** *** Field names *)

Definition digit_value (c : ascii) : option N :=
  let n := N_of_ascii c in
  if (48 <=? n)%N && (n <=? 57)%N then Some (n - 48)%N else None.

Fixpoint decimal_value (s : string) (acc : N) : option N :=
  match s with
  | EmptyString => Some acc
  | String c s' =>
      match digit_value c with
      | Some d => decimal_value s' (10 * acc + d)%N
      | None => None
      end
  end.

(** An array index: the decimal writing, without a leading zero, of an
    integer from 0 to 2^32 - 2. *)
Definition array_index (k : string) : bool :=
  match k with
  | EmptyString => false
  | String c rest =>
      match decimal_value k 0 with
      | Some n =>
          (String.eqb rest "" || negb (Ascii.eqb c "0")) && (n <=? 4294967294)%N
      | None => false
      end
  end.

Section Numbers.
Variable number : Type.
Variable plus minus : number → number → number.
Variable zero : number.
Variable number_to_string : number → string.

(** *** State *)

Record State : Type := mkState {
  lang : string;
  currentUser : option User.t;
  users : list User.t;
  projects : list (Project.t number);
  transactions : list (Transaction.t number);
  sidebarOpen : bool;
  activeTab : string;
  showLogin : bool;
  showAddEmployee : bool;
  showAddProject : bool;
  showAddTransaction : bool
}.

(** *** Totals *)

Record Totals : Type := mkTotals {
  income : number;
  expense : number;
  profit : number;
  projects_count : nat;
  employees_count : nat
}.

Definition totals (st : State) : Totals :=
  let income :=
    foldl (fun s t => plus s (Transaction.amount t)) zero
      (filter (fun t => Transaction.type t = "Income") (transactions st)) in
  let expense :=
    foldl (fun s t => plus s (Transaction.amount t)) zero
      (filter (fun t => Transaction.type t = "Expense") (transactions st)) in
  let profit := minus income expense in
  {| income := income; expense := expense; profit := profit;
     projects_count := length (projects st); employees_count := length (users st) |}.

(** *** Add handlers *)

Definition addEmployee (now : Z) (emp : User.t) (st : State) : State :=
  {| lang := lang st; currentUser := currentUser st;
     users := User.mk now (User.name emp) (User.role emp) (User.email emp) :: users st;
     projects := projects st; transactions := transactions st;
     sidebarOpen := sidebarOpen st; activeTab := activeTab st;
     showLogin := showLogin st; showAddEmployee := false;
     showAddProject := showAddProject st; showAddTransaction := showAddTransaction st |}.

Definition addProject (now : Z) (p : Project.t number) (st : State) : State :=
  {| lang := lang st; currentUser := currentUser st; users := users st;
     projects :=
       Project.mk now (Project.name p) (Project.client _ p) (Project.status _ p)
         (Project.budget _ p) (Project.start _ p) (Project.end_ _ p)
         (Project.engineer _ p) :: projects st;
     transactions := transactions st;
     sidebarOpen := sidebarOpen st; activeTab := activeTab st;
     showLogin := showLogin st; showAddEmployee := showAddEmployee st;
     showAddProject := false; showAddTransaction := showAddTransaction st |}.

Definition addTransaction (now : Z) (tr : Transaction.t number) (st : State) : State :=
  {| lang := lang st; currentUser := currentUser st; users := users st;
     projects := projects st;
     transactions :=
       Transaction.mk now (Transaction.type tr) (Transaction.category tr)
         (Transaction.amount tr) (Transaction.date tr) (Transaction.note tr)
         (Transaction.projectId tr) :: transactions st;
     sidebarOpen := sidebarOpen st; activeTab := activeTab st;
     showLogin := showLogin st; showAddEmployee := showAddEmployee st;
     showAddProject := showAddProject st; showAddTransaction := false |}.

(** *** The project of a transaction, in the finance table

    [projects.find(p => p.id === t.projectId)?.name ?? '-'] *)
Definition project_label (ps : list (Project.t number)) (t : Transaction.t number) : string :=
  match List.find (fun p => bool_decide (Some (Project.id p) = Transaction.projectId t)) ps with
  | Some p => Project.name p
  | None => "-"
  end.

(** *** CSV export *)

(** A value of a field: a string, a number or [null]. *)
Inductive Value : Type :=
| Str (s : string)
| Num (n : number)
| Null.

(** An object: its own properties in insertion order, the names distinct
    (and none of them an array index or a name inherited from
    [Object.prototype], as for the records of the component). *)
Definition Row : Type := list (string * Value).

(** [Object.keys(r)] for such a row: the names in insertion order.  (Names
    that are array indices would come first, in ascending order.) *)
Definition Object_keys (r : Row) : list string := r.*1.

(** [r[k]]; [None] is [undefined]. *)
Definition prop (r : Row) (k : string) : option Value :=
  (list_to_map r : gmap string Value) !! k.

(** The text of [r[k] ?? ''] in a template literal. *)
Definition cell_text (v : option Value) : string :=
  match v with
  | None | Some Null => ""
  | Some (Str s) => s
  | Some (Num n) => number_to_string n
  end.

Definition dquote : string := String "034"%char EmptyString.

Definition newline : string := String "010"%char EmptyString.

Definition quoted (s : string) : string := dquote +:+ s +:+ dquote.

(** The text [exportCSV] puts in the file. *)
Definition exportCSV_text (arr : list Row) : string :=
  let keys := Object_keys (default [] (head arr)) in
  String.concat newline
    (String.concat "," keys
     :: map (fun r => String.concat "," (map (fun k => quoted (cell_text (prop r k))) keys))
          arr).

End Numbers.

End Dashboard.

(** ** The dashboard's sample data *)

Module Sample.
Import Dashboard.

Definition sampleUsers : list User.t :=
  [ User.mk 1 "Ahmed Salah" "Admin" "ahmed@company.com";
    User.mk 2 "Mona Khaled" "Accountant" "mona@company.com";
    User.mk 3 "Omar Fahmy" "Engineer" "omar@company.com";
    User.mk 4 "Yousef Ali" "Worker" "yousef@company.com" ].

Definition sampleProjects : list (Project.t Z) :=
  [ Project.mk 101 "Flat 12B - Fitout" "Mr. Hassan" "In Progress" 40000%Z
      "2025-09-10" "2025-11-20" "Omar Fahmy";
    Project.mk 102 "Building Unit Sale - Unit 7" "Ms. Salma" "Completed" 250000%Z
      "2024-03-01" "2024-08-15" "Omar Fahmy" ].

Definition sampleTransactions : list (Transaction.t Z) :=
  [ Transaction.mk 5001 "Expense" "Materials" 12000%Z "2025-10-20"
      "Tiles + adhesives" (Some 101%Z);
    Transaction.mk 5002 "Income" "Client Payment" 20000%Z "2025-10-25"
      "Milestone 2 payment" (Some 101%Z) ].

(** The state [ERPApp] starts in. *)
Definition initial : State Z :=
  {| lang := "en"; currentUser := head sampleUsers; users := sampleUsers;
     projects := sampleProjects; transactions := sampleTransactions;
     sidebarOpen := true; activeTab := "dashboard";
     showLogin := false; showAddEmployee := false; showAddProject := false;
     showAddTransaction := false |}.

(** Integer amounts, shown in decimal. *)
Definition show (n : Z) : string := pretty n.

(** A user as a row of the employees export, and a user the add handler
    put its [id] on last. *)
Definition user_row (u : User.t) : Row Z :=
  [ ("id", Num Z (User.id u)); ("name", Str Z (User.name u));
    ("role", Str Z (User.role u)); ("email", Str Z (User.email u)) ].

Definition added_user_row (u : User.t) : Row Z :=
  [ ("name", Str Z (User.name u)); ("role", Str Z (User.role u));
    ("email", Str Z (User.email u)); ("id", Num Z (User.id u)) ].

End Sample.

(** ** Properties *)

Import Platform Worker Host Terms.

(** *** The cache storage *)

Lemma storage_get_app (name : string) (cs more : CacheStorage) :
  storage_get name (cs ++ more) =
  match storage_get name cs with
  | Some c => Some c
  | None => storage_get name more
  end.
Proof.
  induction cs as [|[n c] rest IH]; simpl; [done|].
  by case_decide.
Qed.

Lemma storage_get_open (name : string) (cs : CacheStorage) :
  storage_get name (storage_open name cs) = Some (default ∅ (storage_get name cs)).
Proof.
  unfold storage_open.
  destruct (storage_get name cs) as [c|] eqn:E; simpl; [done|].
  rewrite storage_get_app, E. simpl. by rewrite decide_True.
Qed.


Lemma storage_get_set (name : string) (c : Cache) (cs : CacheStorage) :
  storage_get name (storage_set name c cs) = Some c.
Proof.
  induction cs as [|[n c0] rest IH]; simpl.
  - by rewrite decide_True.
  - case_decide; simpl; [by rewrite decide_True | by rewrite decide_False].
Qed.


(** A stored response that matches is found by [caches.match] when no
    cache created before its cache has one that matches. *)
Lemma storage_match_first (name : string) (req : Request) (cs : CacheStorage)
    (c : Cache) (r : Response) :
  storage_match req (created_before name cs) = None →
  storage_get name cs = Some c →
  cache_match req c = Some r →
  storage_match req cs = Some r.
Proof.
  induction cs as [|[n c0] rest IH]; simpl; [done|].
  case_decide.
  - intros _ [= ->] ->. done.
  - simpl. destruct (cache_match req c0); [done|]. auto.
Qed.

(** *** Bulk add *)

Lemma gather_fulfilled (outcomes : list (Settled Response)) (rs : list Response) :
  gather outcomes = Fulfilled rs → outcomes = map Fulfilled rs.
Proof.
  revert rs. induction outcomes as [|[r|why] rest IH]; intros rs; simpl.
  - by intros [= <-].
  - destruct (acceptable r); [|done].
    destruct (gather rest) as [rs'|]; [|done].
    intros [= <-]. simpl. by rewrite (IH rs').
  - done.
Qed.

Lemma gather_rejected (outcomes : list (Settled Response)) (why : Reason) :
  Rejected why ∈ outcomes → ∃ why', gather outcomes = Rejected why'.
Proof.
  induction outcomes as [|[r|why0] rest IH]; simpl.
  - by intros ?%elem_of_nil.
  - intros [?|Hin]%elem_of_cons; [done|].
    destruct (acceptable r); [|eauto].
    destruct (IH Hin) as [why' ->]. eauto.
  - eauto.
Qed.

Lemma dom_put_all (entries : list (string * Response)) (c : Cache) :
  dom (put_all entries c) = list_to_set entries.*1 ∪ dom c.
Proof.
  unfold put_all. revert c.
  induction entries as [|[u r] rest IH]; intros c; simpl.
  - by rewrite (left_id_L ∅ (∪)).
  - rewrite IH, dom_insert_L.
    by rewrite !(assoc_L (∪)), (comm_L (∪) (list_to_set rest.*1) {[u]}).
Qed.


Lemma zip_fetched (net : Network) (urls : list string) (rs : list Response) (u : string) (r : Response) :
  map (fun u => net (GET u)) urls = map Fulfilled rs →
  (u, r) ∈ zip urls rs → net (GET u) = Fulfilled r.
Proof.
  revert rs. induction urls as [|u0 urls IH]; intros [|r0 rs]; simpl; try done.
  - by intros _ ?%elem_of_nil.
  - intros [= E0 E] [[= -> ->]|Hin]%elem_of_cons; [done|]. eauto.
Qed.

Lemma ASSETS_NoDup : NoDup ASSETS.
Proof.
  unfold ASSETS.
  repeat (apply NoDup_cons; split;
          [rewrite list_elem_of_In; simpl; intros H; decompose [or] H; done|]).
  apply NoDup_nil_2.
Qed.

(** *** The handlers, run *)

Lemma on_install_actions (net : Network) :
  on_install net = [WaitUntil (population net); SkipWaiting].
Proof. reflexivity. Qed.

Lemma dispatch_install_run (net : Network) (w : World) :
  dispatch_install net w =
  let cs := storage_open CACHE_NAME (storage w) in
  let w1 := record_all (map (fun u => NetFetch (GET u)) ASSETS)
              (record SkipWaitingSet
                 (record (CacheOpen CACHE_NAME) (with_storage cs w))) in
  match gather (map (fun u => net (GET u)) ASSETS) with
  | Rejected why => (InstallFailure, w1)
  | Fulfilled rs =>
      (Installed,
       record (CacheWrite CACHE_NAME ASSETS)
         (with_storage
            (storage_set CACHE_NAME
               (put_all (zip ASSETS rs) (default ∅ (storage_get CACHE_NAME cs))) cs) w1))
  end.
Proof.
  unfold dispatch_install, run_lifecycle, on_install.
  cbn [run_body]. unfold and_then, call, caches_open, after, cache_addAll.
  cbn [settle_all].
  by destruct (gather (map (λ u, net (GET u)) ASSETS)).
Qed.

Lemma dispatch_fetch_other (net : Network) (req : Request) (w : World) :
  method req ≠ "GET" → dispatch_fetch net req w = (net req, w).
Proof.
  intros Hm. unfold dispatch_fetch, on_fetch. by rewrite decide_True.
Qed.

Lemma dispatch_fetch_get (net : Network) (req : Request) (w : World) :
  method req = "GET" →
  dispatch_fetch net req w =
  match net req with
  | Fulfilled r => (Fulfilled r, record (NetFetch req) w)
  | Rejected _ =>
      (match storage_match req (storage w) with
       | Some r => Fulfilled r
       | None => Rejected NetworkUnavailable
       end,
       record (CacheRead req) (record (NetFetch req) w))
  end.
Proof.
  intros Hm. unfold dispatch_fetch, on_fetch.
  rewrite decide_False by (intros ?; done). cbn [run_body].
  unfold catch, as_value, and_then, call, fetch, rescue, after, caches_match, resolve.
  destruct (net req) as [r|why]; [done|].
  rewrite decide_True by done. cbn [storage record record_all].
  by destruct (storage_match req (storage w)).
Qed.

(** *** Matching, from what is stored *)

Lemma storage_lookup_match_None (req : Request) (cs : CacheStorage) :
  storage_lookup (strip_fragment (url req)) cs = None → storage_match req cs = None.
Proof.
  induction cs as [|[n c] rest IH]; simpl; [done|]. unfold cache_match.
  destruct (c !! strip_fragment (url req)); [done|]. auto.
Qed.

Lemma no_vary_permits (r : Response) (req : Request) :
  vary_fields r = [] → vary_permits r req = true.
Proof. unfold vary_permits. by intros ->. Qed.

(** *** Steady state: the fetch handler *)

(** C1 (as the code has it).  For a GET request, when the network attempt
    fails and no cache of the origin's storage holds a response for the
    request's URL, the fragment apart, the promise given to [respondWith]
    fulfils with [undefined]: the layer substitutes no response, the
    caller's request ends in the network error [NetworkUnavailable], and
    nothing but the one fetch and the one cache read took place. *)
Theorem C1_uncached_failure_reaches_caller
    (net : Network) (req : Request) (w : World) (why : Reason) :
  method req = "GET" →
  net req = Rejected why →
  storage_lookup (strip_fragment (url req)) (storage w) = None →
  fst (settle (network_first net req) w) = Fulfilled Undefined ∧
  dispatch_fetch net req w =
    (Rejected NetworkUnavailable, record (CacheRead req) (record (NetFetch req) w)).
Proof.
  intros Hm Hnet Hnone%storage_lookup_match_None. split.
  - unfold settle, network_first, catch, as_value, and_then, call, rescue, after,
      fetch, caches_match.
    rewrite Hnet. cbn [fst storage record record_all]. by rewrite decide_True, Hnone.
  - by rewrite dispatch_fetch_get, Hnet, Hnone.
Qed.

Lemma C1_uncached_failure_witness :
  method (Scenario.navigation "/reports#october") = "GET" ∧
  Scenario.offline (Scenario.navigation "/reports#october")
  = Rejected (TypeError "offline") ∧
  storage_lookup "/reports" (storage Scenario.shell_and_v0) = None ∧
  fst (dispatch_fetch Scenario.offline (Scenario.navigation "/reports#october")
         Scenario.shell_and_v0)
  = Rejected NetworkUnavailable.
Proof.
  split; [reflexivity|]. split; [reflexivity|]. split; [vm_compute; reflexivity|].
  rewrite (proj2 (C1_uncached_failure_reaches_caller
                    Scenario.offline (Scenario.navigation "/reports#october")
                    Scenario.shell_and_v0
                    (TypeError "offline") eq_refl eq_refl
                    ltac:(vm_compute; reflexivity))).
  reflexivity.
Defined.

(** C1 as stated fails: the cache namespace has no entry for "/app.js",
    the network is down, and yet the caller is answered, with the response
    the cache of the previous version holds. *)
Lemma C1_stale_cache_answers :
  method (GET "/app.js") = "GET" ∧
  Scenario.offline (GET "/app.js") = Rejected (TypeError "offline") ∧
  namespace_entry (storage Scenario.shell_and_v0) "/app.js" = None ∧
  fst (dispatch_fetch Scenario.offline (GET "/app.js") Scenario.shell_and_v0)
  = Fulfilled (Scenario.page "v0 /app.js").
Proof. repeat split; vm_compute; reflexivity. Qed.




(** C3.  For a GET request, when the network attempt succeeds the caller
    gets the network response, whatever the caches hold; the caches are
    not even read. *)
Theorem C3_network_first
    (net : Network) (req : Request) (w : World) (r : Response) :
  method req = "GET" →
  net req = Fulfilled r →
  dispatch_fetch net req w = (Fulfilled r, record (NetFetch req) w).
Proof. intros Hm Hnet. by rewrite dispatch_fetch_get, Hnet. Qed.

Lemma C3_network_first_witness :
  namespace_entry (storage Scenario.shell_only) "/index.html"
  = Some (Scenario.page "v1 /index.html") ∧
  fst (dispatch_fetch Scenario.redeployed (GET "/index.html") Scenario.shell_only)
  = Fulfilled (Scenario.page "v2 /index.html").
Proof.
  split; [vm_compute; reflexivity|].
  rewrite (C3_network_first Scenario.redeployed (GET "/index.html")
             Scenario.shell_only (Scenario.page "v2 /index.html") eq_refl eq_refl).
  reflexivity.
Defined.

(** C4.  A request whose method is not GET is not answered by the handler:
    the host sends it to the network as it is, the caller gets the
    network's response or failure unchanged, and the world (cache storage
    and recorded effects: no cache read, no cache write) is as before. *)
Theorem C4_other_methods_bypass (net : Network) (req : Request) (w : World) :
  method req ≠ "GET" →
  on_fetch net req = [] ∧ dispatch_fetch net req w = (net req, w).
Proof.
  intros Hm. split; [|by apply dispatch_fetch_other].
  unfold on_fetch. by rewrite decide_True.
Qed.

Lemma C4_other_methods_witness :
  method (mkRequest "POST" "/index.html" []) ≠ "GET" ∧
  dispatch_fetch Scenario.offline (mkRequest "POST" "/index.html" []) Scenario.shell_only
  = (Rejected (TypeError "offline"), Scenario.shell_only).
Proof.
  assert (method (mkRequest "POST" "/index.html" []) ≠ "GET") as Hm by discriminate.
  split; [exact Hm|].
  exact (proj2 (C4_other_methods_bypass Scenario.offline
                  (mkRequest "POST" "/index.html" []) Scenario.shell_only Hm)).
Defined.

(** *** Install *)

(** C5.  After a successful install that found the cache namespace absent
    or empty, the namespace holds an entry for each shell asset and for
    nothing else: three entries, each the response the network gave. *)
Theorem C5_install_populates_exactly_the_shell
    (net : Network) (w w' : World) :
  storage_get CACHE_NAME (storage w) = None ∨
  storage_get CACHE_NAME (storage w) = Some ∅ →
  dispatch_install net w = (Installed, w') →
  ∃ c : Cache,
    storage_get CACHE_NAME (storage w') = Some c ∧
    (∀ u, is_Some (c !! u) ↔ u ∈ ASSETS) ∧
    size c = 3 ∧
    (∀ u r, c !! u = Some r → net (GET u) = Fulfilled r).
Proof.
  intros Hempty. rewrite dispatch_install_run. cbv zeta.
  destruct (gather (map (λ u, net (GET u)) ASSETS)) as [rs|why] eqn:Hg; [|done].
  intros [= <-]. cbn [storage record with_storage record_all].
  apply gather_fulfilled in Hg.
  assert (length rs = length ASSETS) as Hlen.
  { rewrite <- (length_map Fulfilled rs), <- Hg. by rewrite length_map. }
  assert (default ∅ (storage_get CACHE_NAME
            (storage_open CACHE_NAME (storage w))) = (∅ : Cache)) as ->.
  { rewrite storage_get_open. by destruct Hempty as [-> | ->]. }
  set (c := put_all (zip ASSETS rs) ∅).
  assert (dom c = list_to_set ASSETS) as Hdom.
  { unfold c. rewrite dom_put_all, fst_zip by lia.
    by rewrite dom_empty_L, (right_id_L ∅ (∪)). }
  exists c. split; [apply storage_get_set|]. split; [|split].
  - intros u. by rewrite <- elem_of_dom, Hdom, elem_of_list_to_set.
  - rewrite <- size_dom, Hdom.
    rewrite size_list_to_set by apply ASSETS_NoDup. reflexivity.
  - destruct rs as [|r1 [|r2 [|r3 [|? ?]]]]; try done.
    injection Hg as H1 H2 H3. intros u r. unfold c, put_all, ASSETS. simpl.
    intros Hu.
    destruct (decide (u = "/manifest.json")) as [->|N3];
      [rewrite lookup_insert_eq in Hu; congruence|rewrite lookup_insert_ne in Hu by done].
    destruct (decide (u = "/index.html")) as [->|N2];
      [rewrite lookup_insert_eq in Hu; congruence|rewrite lookup_insert_ne in Hu by done].
    destruct (decide (u = "/")) as [->|N1];
      [rewrite lookup_insert_eq in Hu; congruence|rewrite lookup_insert_ne in Hu by done].
    by rewrite lookup_empty in Hu.
Qed.

Lemma C5_install_witness :
  storage_get CACHE_NAME (storage Scenario.upgraded_from_v0) = None ∧
  dispatch_install Scenario.online Scenario.upgraded_from_v0
  = (Installed, Scenario.shell_and_v0) ∧
  ∃ c : Cache,
    storage_get CACHE_NAME (storage Scenario.shell_and_v0) = Some c ∧
    (∀ u, is_Some (c !! u) ↔ u ∈ ASSETS) ∧
    size c = 3 ∧
    (∀ u r, c !! u = Some r → Scenario.online (GET u) = Fulfilled r).
Proof.
  split; [reflexivity|]. split; [vm_compute; reflexivity|].
  apply (C5_install_populates_exactly_the_shell
           Scenario.online Scenario.upgraded_from_v0 Scenario.shell_and_v0).
  - left. reflexivity.
  - vm_compute. reflexivity.
Defined.

(** C6.  If the fetch of a shell asset fails during the population, the
    install fails ([InstallFailure]), the worker stays uninstalled, and no
    sequence of events under such a network brings it to [ACTIVE]. *)
Theorem C6_install_fails_with_an_asset
    (net : Network) (s : Layer) (a : string) (why : Reason) :
  a ∈ ASSETS →
  net (GET a) = Rejected why →
  phase s = UNINSTALLED →
  fst (dispatch_install net (world s)) = InstallFailure ∧
  phase (fst (step net Install s)) = UNINSTALLED ∧
  ∀ evs, phase (run net evs s) ≠ ACTIVE.
Proof.
  intros Ha Hnet.
  assert (∀ w, fst (dispatch_install net w) = InstallFailure) as Hfail.
  { intros w. rewrite dispatch_install_run. cbv zeta.
    destruct (gather_rejected (map (λ u, net (GET u)) ASSETS) why) as [why' ->]; [|done].
    rewrite <- Hnet. apply (list_elem_of_fmap_2 (λ u, net (GET u))). exact Ha. }
  assert (∀ ev s0, phase s0 = UNINSTALLED → phase (fst (step net ev s0)) = UNINSTALLED)
    as Hstep.
  { intros ev [p w] Hp. simpl in Hp. subst p. destruct ev; simpl; try done.
    specialize (Hfail w). destruct (dispatch_install net w) as [[|] w']; simpl in *; done. }
  intros Hs. split; [apply Hfail|]. split; [by apply Hstep|].
  intros evs.
  assert (phase (run net evs s) = UNINSTALLED) as ->; [|done].
  revert s Hs. unfold run. induction evs as [|ev evs IH]; intros s Hs; simpl; [done|].
  apply IH. by apply Hstep.
Qed.

Lemma C6_install_fails_witness :
  "/manifest.json" ∈ ASSETS ∧
  Scenario.no_manifest (GET "/manifest.json") = Rejected (TypeError "offline") ∧
  fst (dispatch_install Scenario.no_manifest Scenario.fresh) = InstallFailure ∧
  phase (fst (step Scenario.no_manifest Install (mkLayer UNINSTALLED Scenario.fresh)))
  = UNINSTALLED ∧
  ∀ evs, phase (run Scenario.no_manifest evs (mkLayer UNINSTALLED Scenario.fresh)) ≠ ACTIVE.
Proof.
  assert ("/manifest.json" ∈ ASSETS) as Ha.
  { unfold ASSETS. apply list_elem_of_In. simpl. tauto. }
  split; [exact Ha|]. split; [reflexivity|].
  exact (C6_install_fails_with_an_asset Scenario.no_manifest
           (mkLayer UNINSTALLED Scenario.fresh) "/manifest.json" (TypeError "offline")
           Ha eq_refl eq_refl).
Defined.




(** C9.  The install handler asks to skip waiting whatever the network
    and the storage are, hence whether the population succeeds or fails:
    [skipWaiting] is one of its two statements, it is called right after
    [caches.open] was called for the argument of [waitUntil], before
    anything was fetched or written, and the population is the only
    promise the install event waits for. *)
Theorem C9_skip_waiting_is_unconditional (net : Network) (w : World) :
  SkipWaiting ∈ on_install net ∧
  awaited (on_install net) = [population net] ∧
  ∃ later,
    effects (snd (dispatch_install net w))
    = effects w ++ CacheOpen CACHE_NAME :: SkipWaitingSet :: later ∧
    ∀ e, e ∈ later →
         (∃ u, e = NetFetch (GET u)) ∨ e = CacheWrite CACHE_NAME ASSETS.
Proof.
  split; [rewrite on_install_actions; apply list_elem_of_In; simpl; tauto|].
  split; [reflexivity|].
  rewrite dispatch_install_run. cbv zeta.
  destruct (gather (map (λ u, net (GET u)) ASSETS)) as [rs|why];
    cbn [snd effects record record_all with_storage];
    rewrite <- !(assoc_L (++)); simpl;
    eexists; (split; [reflexivity|]);
    intros e He%list_elem_of_In; simpl in He;
    decompose [or] He; subst; eauto; done.
Qed.

(** *** Frame and determinism *)

(** C8.  Handling an intercepted request leaves the cache storage as it
    was, whatever the method, the network outcome and the caches hold; so
    does activation.  A request only adds a fetch and a cache read to the
    recorded effects: the writes are those of the install. *)
Theorem C8_steady_state_only_reads
    (net : Network) (req : Request) (w : World) (s : Layer) :
  storage (snd (dispatch_fetch net req w)) = storage w ∧
  (∃ new, effects (snd (dispatch_fetch net req w)) = effects w ++ new ∧
          ∀ e, e ∈ new → e = NetFetch req ∨ e = CacheRead req) ∧
  storage (world (fst (step net (Fetch req) s))) = storage (world s) ∧
  storage (world (fst (step net Activate s))) = storage (world s).
Proof.
  assert (∀ w0, storage (snd (dispatch_fetch net req w0)) = storage w0) as Hframe.
  { intros w0. destruct (decide (method req = "GET")) as [Hm|Hm].
    - rewrite dispatch_fetch_get by done. by destruct (net req).
    - by rewrite dispatch_fetch_other. }
  split; [apply Hframe|]. split; [|split].
  - destruct (decide (method req = "GET")) as [Hm|Hm].
    + rewrite dispatch_fetch_get by done. destruct (net req); simpl.
      * exists [NetFetch req]. split; [done|].
        intros e He%list_elem_of_In. simpl in He. destruct He as [<-|[]]. by left.
      * exists [NetFetch req; CacheRead req]. rewrite <- (assoc_L (++)). split; [done|].
        intros e He%list_elem_of_In. simpl in He.
        destruct He as [<-|[<-|[]]]; [by left | by right].
    + rewrite dispatch_fetch_other by done. exists []. simpl.
      split; [by rewrite (right_id_L [] (++))|]. by intros e ?%elem_of_nil.
  - destruct s as [[| |] ws]; simpl; try done.
    specialize (Hframe ws). by destruct (dispatch_fetch net req ws).
  - by destruct s as [[| |] ws].
Qed.

(** C10 (as the code has it).  The outcome of an intercepted request and
    the cache storage it leaves are determined by the request (method,
    URL and headers), the network's outcome for that request and the
    contents of the origin's cache storage, all caches in creation order:
    not by what the network does with other requests, nor by what the
    worker did before. *)
Theorem C10_fetch_is_determined
    (net1 net2 : Network) (req : Request) (w1 w2 : World) :
  net1 req = net2 req →
  storage w1 = storage w2 →
  fst (dispatch_fetch net1 req w1) = fst (dispatch_fetch net2 req w2) ∧
  storage (snd (dispatch_fetch net1 req w1)) = storage (snd (dispatch_fetch net2 req w2)).
Proof.
  intros Hnet Hcs. destruct (decide (method req = "GET")) as [Hm|Hm].
  - rewrite !dispatch_fetch_get by done. rewrite Hnet, Hcs.
    destruct (net2 req); simpl; by rewrite ?Hcs.
  - rewrite !dispatch_fetch_other by done. simpl. by rewrite Hnet, Hcs.
Qed.

Lemma C10_fetch_is_determined_witness :
  Scenario.online (Scenario.scripted "/") = Scenario.redeployed (Scenario.scripted "/") ∧
  storage Scenario.shell_varying = storage (record ClientsClaimed Scenario.shell_varying) ∧
  fst (dispatch_fetch Scenario.online (Scenario.scripted "/") Scenario.shell_varying)
  = fst (dispatch_fetch Scenario.redeployed (Scenario.scripted "/")
           (record ClientsClaimed Scenario.shell_varying)).
Proof.
  split; [reflexivity|]. split; [reflexivity|].
  exact (proj1 (C10_fetch_is_determined Scenario.online Scenario.redeployed
                  (Scenario.scripted "/")
                  Scenario.shell_varying (record ClientsClaimed Scenario.shell_varying)
                  eq_refl eq_refl)).
Defined.

(** C10 as stated fails: the same request, the same network outcome and
    the same contents of the cache namespace, and two different results,
    because a cache of the previous version is there in one run. *)
Lemma C10_other_caches_change_the_result :
  Scenario.offline (GET "/app.js") = Scenario.offline (GET "/app.js") ∧
  storage_get CACHE_NAME (storage Scenario.shell_only)
  = storage_get CACHE_NAME (storage Scenario.shell_and_v0) ∧
  fst (dispatch_fetch Scenario.offline (GET "/app.js") Scenario.shell_only)
  = Rejected NetworkUnavailable ∧
  fst (dispatch_fetch Scenario.offline (GET "/app.js") Scenario.shell_and_v0)
  = Fulfilled (Scenario.page "v0 /app.js").
Proof. repeat split; vm_compute; reflexivity. Qed.

(** The headers of the request count too: two requests with the same
    method and URL, under the same network and over the same cache
    storage, get two results when the stored response varies on a header
    that only one of them carries.  The namespace holds the document and
    no other cache is there, yet the second request is not answered. *)
Lemma request_headers_change_the_result :
  storage Scenario.shell_varying
  = [(CACHE_NAME,
      list_to_map [("/", Scenario.varied "v1 /");
                   ("/index.html", Scenario.varied "v1 /index.html");
                   ("/manifest.json", Scenario.varied "v1 /manifest.json")])] ∧
  method (Scenario.navigation "/index.html") = method (Scenario.scripted "/index.html") ∧
  url (Scenario.navigation "/index.html") = url (Scenario.scripted "/index.html") ∧
  fst (dispatch_fetch Scenario.offline (Scenario.navigation "/index.html")
         Scenario.shell_varying)
  = Fulfilled (Scenario.varied "v1 /index.html") ∧
  fst (dispatch_fetch Scenario.offline (Scenario.scripted "/index.html")
         Scenario.shell_varying)
  = Rejected NetworkUnavailable.
Proof. repeat split; vm_compute; reflexivity. Qed.
(** ** Further properties of the worker *)

Import Runs.

(** *** More on the cache storage *)

Lemma storage_get_set_ne (name n : string) (c : Cache) (cs : CacheStorage) :
  name ≠ n → storage_get n (storage_set name c cs) = storage_get n cs.
Proof.
  intros Hne. induction cs as [|[m c0] rest IH]; simpl.
  - by rewrite decide_False.
  - destruct (decide (m = name)) as [->|Hm]; simpl.
    + by rewrite !decide_False.
    + by rewrite IH.
Qed.

Lemma storage_get_open_ne (name n : string) (cs : CacheStorage) :
  name ≠ n → storage_get n (storage_open name cs) = storage_get n cs.
Proof.
  intros Hne. unfold storage_open. destruct (storage_get name cs); [done|].
  rewrite storage_get_app. simpl. rewrite decide_False by done.
  by destruct (storage_get n cs).
Qed.

Lemma storage_match_app (req : Request) (cs more : CacheStorage) :
  storage_match req (cs ++ more) =
  match storage_match req cs with
  | Some r => Some r
  | None => storage_match req more
  end.
Proof.
  induction cs as [|[n c] rest IH]; simpl; [done|].
  by destruct (cache_match req c).
Qed.

Lemma cache_match_empty (req : Request) : cache_match req ∅ = None.
Proof. unfold cache_match. by rewrite lookup_empty. Qed.

Lemma storage_match_open (name : string) (req : Request) (cs : CacheStorage) :
  storage_match req (storage_open name cs) = storage_match req cs.
Proof.
  unfold storage_open. destruct (storage_get name cs); [done|].
  rewrite storage_match_app. simpl. rewrite cache_match_empty.
  by destruct (storage_match req cs).
Qed.

Lemma storage_match_set_None (name : string) (req : Request) (c : Cache)
    (cs : CacheStorage) :
  cache_match req c = None → storage_match req cs = None →
  storage_match req (storage_set name c cs) = None.
Proof.
  intros Hc. induction cs as [|[n c0] rest IH]; simpl.
  - by rewrite Hc.
  - destruct (cache_match req c0) eqn:E0; [done|]. intros Hrest.
    case_decide; simpl; [by rewrite Hc | by rewrite E0, IH].
Qed.

Lemma storage_match_get_None (name : string) (req : Request) (c : Cache)
    (cs : CacheStorage) :
  storage_match req cs = None → storage_get name cs = Some c →
  cache_match req c = None.
Proof.
  induction cs as [|[n c0] rest IH]; simpl; [done|].
  destruct (cache_match req c0) eqn:E0; [done|]. intros Hrest.
  case_decide; [by intros [= <-] | by apply IH].
Qed.

Lemma created_before_open (name : string) (cs : CacheStorage) :
  created_before name (storage_open name cs) = created_before name cs.
Proof.
  unfold storage_open. destruct (storage_get name cs) eqn:E; [done|].
  induction cs as [|[n c] rest IH]; simpl in *.
  - by rewrite decide_True.
  - case_decide; [done|]. by rewrite IH.
Qed.

Lemma created_before_set (name : string) (c : Cache) (cs : CacheStorage) :
  created_before name (storage_set name c cs) = created_before name cs.
Proof.
  induction cs as [|[n c0] rest IH]; simpl.
  - by rewrite decide_True.
  - case_decide; simpl; [by rewrite decide_True | by rewrite decide_False, IH].
Qed.

Lemma lookup_put_all_ne (entries : list (string * Response)) (c : Cache) (u : string) :
  u ∉ entries.*1 → put_all entries c !! u = c !! u.
Proof.
  unfold put_all. revert c.
  induction entries as [|[k r] rest IH]; intros c; simpl; [done|].
  intros Hu. apply not_elem_of_cons in Hu as [Hk Hrest].
  by rewrite IH, lookup_insert_ne.
Qed.

Lemma lookup_put_all (entries : list (string * Response)) (c : Cache)
    (u : string) (r : Response) :
  NoDup entries.*1 → (u, r) ∈ entries → put_all entries c !! u = Some r.
Proof.
  unfold put_all. revert c.
  induction entries as [|[k r0] rest IH]; intros c; simpl.
  - by intros _ ?%elem_of_nil.
  - intros [Hk Hnd]%NoDup_cons [[= -> ->]|Hin]%elem_of_cons.
    + fold (put_all rest (<[k:=r0]> c)).
      by rewrite lookup_put_all_ne, lookup_insert_eq.
    + by apply IH.
Qed.

(** *** What an install leaves behind *)

Lemma gather_acceptable (outcomes : list (Settled Response)) (rs : list Response) :
  gather outcomes = Fulfilled rs → Forall (fun r => acceptable r = true) rs.
Proof.
  revert rs. induction outcomes as [|[r|why] rest IH]; intros rs; simpl.
  - intros [= <-]. constructor.
  - destruct (acceptable r) eqn:Hr; [|done].
    destruct (gather rest) as [rs'|]; [|done].
    intros [= <-]. constructor; [done|]. by apply IH.
  - done.
Qed.

Lemma gather_all_acceptable (rs : list Response) :
  Forall (fun r => acceptable r = true) rs → gather (map Fulfilled rs) = Fulfilled rs.
Proof.
  induction 1 as [|r rs Hr _ IH]; simpl; [done|]. by rewrite Hr, IH.
Qed.

Lemma install_storage (net : Network) (w : World) :
  storage (snd (dispatch_install net w)) =
  match gather (map (fun u => net (GET u)) ASSETS) with
  | Rejected _ => storage_open CACHE_NAME (storage w)
  | Fulfilled rs =>
      storage_set CACHE_NAME
        (put_all (zip ASSETS rs) (default ∅ (storage_get CACHE_NAME (storage w))))
        (storage_open CACHE_NAME (storage w))
  end.
Proof.
  rewrite dispatch_install_run. cbv zeta.
  destruct (gather (map (λ u, net (GET u)) ASSETS)) as [rs|why];
    cbn [snd storage record record_all with_storage]; [|done].
  by rewrite storage_get_open.
Qed.

Lemma install_result (net : Network) (w : World) :
  fst (dispatch_install net w) =
  match gather (map (fun u => net (GET u)) ASSETS) with
  | Rejected _ => InstallFailure
  | Fulfilled _ => Installed
  end.
Proof.
  rewrite dispatch_install_run. cbv zeta.
  by destruct (gather (map (λ u, net (GET u)) ASSETS)).
Qed.

Lemma dispatch_fetch_storage (net : Network) (req : Request) (w : World) :
  storage (snd (dispatch_fetch net req w)) = storage w.
Proof.
  destruct (decide (method req = "GET")) as [Hm|Hm].
  - rewrite dispatch_fetch_get by done. by destruct (net req).
  - by rewrite dispatch_fetch_other.
Qed.

Lemma dispatch_fetch_answer (net : Network) (req : Request) (w : World) :
  fst (dispatch_fetch net req w) =
  if decide (method req = "GET") then
    match net req with
    | Fulfilled r => Fulfilled r
    | Rejected _ =>
        match storage_match req (storage w) with
        | Some r => Fulfilled r
        | None => Rejected NetworkUnavailable
        end
    end
  else net req.
Proof.
  case_decide as Hm.
  - rewrite dispatch_fetch_get by done. by destruct (net req).
  - by rewrite dispatch_fetch_other.
Qed.

Lemma step_storage (net : Network) (ev : Event) (s : Layer) :
  storage (world (fst (step net ev s))) = storage (world s) ∨
  storage (world (fst (step net ev s))) = storage (snd (dispatch_install net (world s))).
Proof.
  destruct s as [p w]. destruct ev as [| |req]; destruct p; simpl; auto.
  - right. by destruct (dispatch_install net w) as [[|] w'].
  - left. pose proof (dispatch_fetch_storage net req w) as Hf.
    by destruct (dispatch_fetch net req w).
Qed.

(** *** Install and fetch together *)

(** X1.  After a successful install, a GET for a shell asset (the
    fragment of the URL apart) is answered, when the network is down,
    with exactly the response the network gave for the asset during the
    install, whatever the namespace held before, provided that this
    response came without a [Vary] header and that no cache created
    before the namespace has an entry for the asset. *)
Theorem X1_shell_served_offline
    (net1 net2 : Network) (w w' : World) (req : Request) (why : Reason) :
  dispatch_install net1 w = (Installed, w') →
  method req = "GET" →
  strip_fragment (url req) ∈ ASSETS →
  (∀ r, net1 (GET (strip_fragment (url req))) = Fulfilled r → vary_fields r = []) →
  storage_lookup (strip_fragment (url req)) (created_before CACHE_NAME (storage w))
  = None →
  net2 req = Rejected why →
  ∃ r, net1 (GET (strip_fragment (url req))) = Fulfilled r ∧
       fst (dispatch_fetch net2 req w') = Fulfilled r.
Proof.
  intros Hinst Hm Ha Hvary Hfirst%storage_lookup_match_None Hdown.
  pose proof (install_storage net1 w) as Hst.
  pose proof (install_result net1 w) as Hres.
  rewrite Hinst in Hst, Hres. cbn [fst snd] in Hst, Hres.
  destruct (gather (map (λ u, net1 (GET u)) ASSETS)) as [rs|] eqn:Hg; [|done].
  apply gather_fulfilled in Hg.
  assert (length rs = length ASSETS) as Hlen.
  { rewrite <- (length_map Fulfilled rs), <- Hg. by rewrite length_map. }
  apply list_elem_of_lookup in Ha as [i Hi].
  destruct (lookup_lt_is_Some_2 rs i) as [r Hr].
  { rewrite Hlen. by eapply lookup_lt_Some. }
  assert ((strip_fragment (url req), r) ∈ zip ASSETS rs) as Hin.
  { apply list_elem_of_lookup. exists i. rewrite lookup_zip_with, Hi. simpl. by rewrite Hr. }
  assert (net1 (GET (strip_fragment (url req))) = Fulfilled r) as Hnet
    by (by apply (zip_fetched net1 ASSETS rs)).
  exists r. split; [done|].
  rewrite dispatch_fetch_answer, decide_True by done. rewrite Hdown, Hst.
  erewrite storage_match_first; [done| |apply storage_get_set|].
  - by rewrite created_before_set, created_before_open.
  - unfold cache_match. rewrite (lookup_put_all _ _ _ r).
    + by rewrite (no_vary_permits r req (Hvary r Hnet)).
    + rewrite fst_zip by lia. apply ASSETS_NoDup.
    + done.
Qed.

Lemma X1_shell_served_offline_witness :
  dispatch_install Scenario.online Scenario.upgraded_from_v0
  = (Installed, Scenario.shell_and_v0) ∧
  strip_fragment (url (Scenario.navigation "/manifest.json#icons")) ∈ ASSETS ∧
  ∃ r, Scenario.online (GET "/manifest.json") = Fulfilled r ∧
       fst (dispatch_fetch Scenario.offline (Scenario.navigation "/manifest.json#icons")
              Scenario.shell_and_v0)
       = Fulfilled r.
Proof.
  assert (strip_fragment (url (Scenario.navigation "/manifest.json#icons")) ∈ ASSETS)
    as Ha.
  { unfold ASSETS. apply list_elem_of_In. vm_compute. tauto. }
  split; [vm_compute; reflexivity|]. split; [exact Ha|].
  apply (X1_shell_served_offline Scenario.online Scenario.offline
           Scenario.upgraded_from_v0 Scenario.shell_and_v0
           (Scenario.navigation "/manifest.json#icons") (TypeError "offline")).
  - vm_compute. reflexivity.
  - reflexivity.
  - exact Ha.
  - intros r [= <-]. reflexivity.
  - vm_compute. reflexivity.
  - reflexivity.
Defined.

(** X2.  Only the shell is kept for offline use: after a successful
    install, a GET for a URL that is not a shell asset, the fragment
    apart, and for which no cache had an entry before the install, fails
    with [NetworkUnavailable] when the network is down. *)
Theorem X2_unlisted_url_fails_offline
    (net1 net2 : Network) (w w' : World) (req : Request) (why : Reason) :
  dispatch_install net1 w = (Installed, w') →
  method req = "GET" →
  strip_fragment (url req) ∉ ASSETS →
  storage_lookup (strip_fragment (url req)) (storage w) = None →
  net2 req = Rejected why →
  fst (dispatch_fetch net2 req w') = Rejected NetworkUnavailable.
Proof.
  intros Hinst Hm Hu Hnone%storage_lookup_match_None Hdown.
  pose proof (install_storage net1 w) as Hst.
  rewrite Hinst in Hst. cbn [snd] in Hst.
  rewrite dispatch_fetch_answer, decide_True by done. rewrite Hdown, Hst.
  destruct (gather (map (λ u, net1 (GET u)) ASSETS)) as [rs|] eqn:Hg.
  - apply gather_fulfilled in Hg.
    assert (length rs = length ASSETS) as Hlen.
    { rewrite <- (length_map Fulfilled rs), <- Hg. by rewrite length_map. }
    rewrite storage_match_set_None; [done| |by rewrite storage_match_open].
    unfold cache_match.
    rewrite lookup_put_all_ne by (by rewrite fst_zip by lia).
    destruct (storage_get CACHE_NAME (storage w)) as [c|] eqn:Hc; simpl; [|done].
    exact (storage_match_get_None _ _ _ _ Hnone Hc).
  - by rewrite storage_match_open, Hnone.
Qed.

Lemma X2_unlisted_url_witness :
  (strip_fragment (url (Scenario.navigation "/reports#2025")) ∉ ASSETS) ∧
  storage_lookup "/reports" (storage Scenario.upgraded_from_v0) = None ∧
  fst (dispatch_fetch Scenario.offline (Scenario.navigation "/reports#2025")
         Scenario.shell_and_v0)
  = Rejected NetworkUnavailable.
Proof.
  assert (strip_fragment (url (Scenario.navigation "/reports#2025")) ∉ ASSETS) as Hu.
  { unfold ASSETS. rewrite list_elem_of_In. vm_compute. intros H. decompose [or] H; done. }
  split; [exact Hu|]. split; [vm_compute; reflexivity|].
  apply (X2_unlisted_url_fails_offline Scenario.online Scenario.offline
           Scenario.upgraded_from_v0 Scenario.shell_and_v0
           (Scenario.navigation "/reports#2025") (TypeError "offline")).
  - vm_compute. reflexivity.
  - reflexivity.
  - exact Hu.
  - vm_compute. reflexivity.
  - reflexivity.
Defined.

(** X3.  A failed install changes no answer of the layer: whatever the
    caches held before is served as before, and nothing else is. *)
Theorem X3_failed_install_changes_no_answer
    (net : Network) (w w' : World) (net2 : Network) (req : Request) :
  dispatch_install net w = (InstallFailure, w') →
  fst (dispatch_fetch net2 req w') = fst (dispatch_fetch net2 req w).
Proof.
  intros Hinst.
  pose proof (install_storage net w) as Hst.
  pose proof (install_result net w) as Hres.
  rewrite Hinst in Hst, Hres. cbn [fst snd] in Hst, Hres.
  destruct (gather (map (λ u, net (GET u)) ASSETS)); [done|].
  rewrite !dispatch_fetch_answer. by rewrite Hst, storage_match_open.
Qed.

Lemma X3_failed_install_witness :
  dispatch_install Scenario.no_manifest Scenario.shell_and_v0
  = (InstallFailure, snd (dispatch_install Scenario.no_manifest Scenario.shell_and_v0)) ∧
  fst (dispatch_fetch Scenario.offline (GET "/index.html")
         (snd (dispatch_install Scenario.no_manifest Scenario.shell_and_v0)))
  = fst (dispatch_fetch Scenario.offline (GET "/index.html") Scenario.shell_and_v0).
Proof.
  assert (dispatch_install Scenario.no_manifest Scenario.shell_and_v0
          = (InstallFailure,
             snd (dispatch_install Scenario.no_manifest Scenario.shell_and_v0))) as H
    by (vm_compute; reflexivity).
  split; [exact H|].
  exact (X3_failed_install_changes_no_answer Scenario.no_manifest Scenario.shell_and_v0
           _ Scenario.offline (GET "/index.html") H).
Defined.

(** X4.  The install succeeds exactly when every shell asset is fetched
    with a response the bulk add accepts (status 200 to 299 other than
    206, and a [Vary] that does not list [*]): a rejected fetch fails it,
    and so does a response such as a 404. *)
Theorem X4_install_succeeds_iff_all_acceptable (net : Network) (w : World) :
  fst (dispatch_install net w) = Installed ↔
  ∀ a, a ∈ ASSETS → ∃ r, net (GET a) = Fulfilled r ∧ acceptable r = true.
Proof.
  rewrite install_result. split.
  - destruct (gather (map (λ u, net (GET u)) ASSETS)) as [rs|] eqn:Hg; [|done].
    intros _ a Ha.
    pose proof (gather_acceptable _ _ Hg) as Hok.
    apply gather_fulfilled in Hg.
    apply list_elem_of_lookup in Ha as [i Hi].
    assert (map (λ u, net (GET u)) ASSETS !! i = Some (net (GET a))) as Hn
      by (by rewrite list_lookup_fmap, Hi).
    rewrite Hg, list_lookup_fmap in Hn.
    destruct (rs !! i) as [r|] eqn:Hr; [|done]. injection Hn as Hn.
    exists r. split; [done|].
    by apply (proj1 (Forall_lookup _ rs) Hok i r).
  - intros Hall.
    assert (∃ rs, map (λ u, net (GET u)) ASSETS = map Fulfilled rs ∧
                  Forall (λ r, acceptable r = true) rs) as (rs & -> & Hok).
    { induction ASSETS as [|a rest IH].
      - exists []. by split.
      - destruct (Hall a) as (r & Hr & Hacc); [left|].
        destruct IH as (rs & Hrs & Hok); [intros a' Ha'; apply Hall; by right|].
        exists (r :: rs). simpl. rewrite Hr, Hrs. split; [done|]. by constructor. }
    by rewrite gather_all_acceptable.
Qed.

Lemma X4_install_witness :
  Scenario.starred (GET "/index.html")
  = Fulfilled {| status := 200; headers := [("Vary", "*")]; body := "v1 /index.html" |} ∧
  fst (dispatch_install Scenario.starred Scenario.fresh) ≠ Installed ∧
  fst (dispatch_install Scenario.online Scenario.fresh) = Installed.
Proof.
  split; [reflexivity|]. split.
  - intros H.
    destruct (proj1 (X4_install_succeeds_iff_all_acceptable Scenario.starred Scenario.fresh)
                H "/index.html") as (r & Hr & Hacc).
    + unfold ASSETS. apply list_elem_of_In. simpl. tauto.
    + injection Hr as <-. vm_compute in Hacc. discriminate Hacc.
  - apply (proj2 (X4_install_succeeds_iff_all_acceptable Scenario.online Scenario.fresh)).
    intros a _. eexists. split; [reflexivity|]. vm_compute. reflexivity.
Defined.

(** *** Invariants of any run *)

Lemma play_invariant (P : CacheStorage → Prop) (script : list (Network * Event)) (s : Layer) :
  (∀ net w, P (storage w) → P (storage (snd (dispatch_install net w)))) →
  P (storage (world s)) → P (storage (world (play script s))).
Proof.
  intros Hinstall. unfold play. revert s.
  induction script as [|[net ev] script IH]; intros s Hs; simpl; [done|].
  apply IH. destruct (step_storage net ev s) as [-> | ->]; [done|]. by apply Hinstall.
Qed.

(** X5.  The worker never touches a cache other than its namespace:
    through any sequence of installs, activations and requests, under any
    networks, every other cache of the origin holds what it held (none is
    emptied or deleted, a cache of a previous version included). *)
Theorem X5_other_caches_are_kept
    (script : list (Network * Event)) (s : Layer) (name : string) :
  name ≠ CACHE_NAME →
  storage_get name (storage (world (play script s)))
  = storage_get name (storage (world s)).
Proof.
  intros Hne.
  apply (play_invariant
           (λ cs, storage_get name cs = storage_get name (storage (world s)))); [|done].
  intros net w Hw. rewrite install_storage.
  destruct (gather (map (λ u, net (GET u)) ASSETS)).
  - by rewrite storage_get_set_ne, storage_get_open_ne.
  - by rewrite storage_get_open_ne.
Qed.

Lemma X5_other_caches_witness :
  "topview-shell-v0" ≠ CACHE_NAME ∧
  storage_get "topview-shell-v0"
    (storage (world (play [(Scenario.online, Install); (Scenario.online, Activate);
                           (Scenario.offline, Fetch (GET "/app.js"));
                           (Scenario.redeployed, Install)]
                      (mkLayer UNINSTALLED Scenario.upgraded_from_v0))))
  = storage_get "topview-shell-v0" (storage Scenario.upgraded_from_v0).
Proof.
  assert ("topview-shell-v0" ≠ CACHE_NAME) as Hne by discriminate.
  split; [exact Hne|].
  exact (X5_other_caches_are_kept
           [(Scenario.online, Install); (Scenario.online, Activate);
            (Scenario.offline, Fetch (GET "/app.js")); (Scenario.redeployed, Install)]
           (mkLayer UNINSTALLED Scenario.upgraded_from_v0) "topview-shell-v0" Hne).
Defined.

(** X6.  No response is ever written back: if the cache namespace holds
    entries for shell assets only (as when it does not exist yet), then it
    holds entries for shell assets only after any sequence of installs,
    activations and requests, whatever was requested and served. *)
Theorem X6_namespace_holds_only_the_shell
    (script : list (Network * Event)) (s : Layer) :
  (∀ u, is_Some (namespace_entry (storage (world s)) u) → u ∈ ASSETS) →
  ∀ u, is_Some (namespace_entry (storage (world (play script s))) u) → u ∈ ASSETS.
Proof.
  apply (play_invariant (λ cs, ∀ u, is_Some (namespace_entry cs u) → u ∈ ASSETS)).
  intros net w Hw u. rewrite install_storage. unfold namespace_entry in *.
  destruct (gather (map (λ u, net (GET u)) ASSETS)) as [rs|] eqn:Hg.
  - rewrite storage_get_set. cbn [mbind option_bind].
    apply gather_fulfilled in Hg.
    assert (length rs = length ASSETS) as Hlen.
    { rewrite <- (length_map Fulfilled rs), <- Hg. by rewrite length_map. }
    rewrite <- elem_of_dom, dom_put_all, fst_zip by lia.
    intros [Hin|Hin]%elem_of_union; [by apply elem_of_list_to_set in Hin|].
    apply Hw. apply elem_of_dom in Hin.
    by destruct (storage_get CACHE_NAME (storage w)).
  - rewrite storage_get_open. intros Hsome. apply Hw.
    by destruct (storage_get CACHE_NAME (storage w)).
Qed.

Lemma X6_namespace_witness :
  (∀ u, is_Some (namespace_entry (storage Scenario.upgraded_from_v0) u) → u ∈ ASSETS) ∧
  ∀ u, is_Some (namespace_entry
                  (storage (world (play [(Scenario.online, Install);
                                         (Scenario.online, Activate);
                                         (Scenario.online, Fetch (GET "/reports"))]
                                    (mkLayer UNINSTALLED Scenario.upgraded_from_v0)))) u) →
       u ∈ ASSETS.
Proof.
  assert (∀ u, is_Some (namespace_entry (storage Scenario.upgraded_from_v0) u) → u ∈ ASSETS)
    as H0.
  { intros u [r Hr]. vm_compute in Hr. discriminate. }
  split; [exact H0|].
  exact (X6_namespace_holds_only_the_shell
           [(Scenario.online, Install); (Scenario.online, Activate);
            (Scenario.online, Fetch (GET "/reports"))]
           (mkLayer UNINSTALLED Scenario.upgraded_from_v0) H0).
Defined.

(** X7.  Bringing the worker up: when every shell asset is served with a
    response the bulk add accepts, an install followed by an activation
    takes an uninstalled worker to [ACTIVE], and the platform calls made
    are, in this order: [caches.open], [skipWaiting], one fetch for each
    shell asset, the write of the entries, and [clients.claim] by the
    activate handler. *)
Theorem X7_bring_up
    (net net' : Network) (w : World) :
  (∀ a, a ∈ ASSETS → ∃ r, net (GET a) = Fulfilled r ∧ acceptable r = true) →
  let s := play [(net, Install); (net', Activate)] (mkLayer UNINSTALLED w) in
  phase s = ACTIVE ∧
  effects (world s) = effects w ++ bring_up_trace.
Proof.
  intros Hall. unfold play. simpl.
  assert (∃ rs, gather (map (λ u, net (GET u)) ASSETS) = Fulfilled rs) as [rs Hg].
  { assert (∃ rs, map (λ u, net (GET u)) ASSETS = map Fulfilled rs ∧
                  Forall (λ r, acceptable r = true) rs) as (rs & -> & Hok).
    { induction ASSETS as [|a rest IH].
      - exists []. by split.
      - destruct (Hall a) as (r & Hr & Hacc); [left|].
        destruct IH as (rs & Hrs & Hok); [intros a' Ha'; apply Hall; by right|].
        exists (r :: rs). simpl. rewrite Hr, Hrs. split; [done|]. by constructor. }
    exists rs. by apply gather_all_acceptable. }
  rewrite dispatch_install_run. cbv zeta. rewrite Hg.
  cbn [fst phase world]. split; [done|].
  unfold dispatch_activate, run_lifecycle, on_activate, call, clients_claim, bring_up_trace.
  cbn [run_body settle_all snd effects record record_all with_storage].
  rewrite <- !(assoc_L (++)). simpl. done.
Qed.

Lemma X7_bring_up_witness :
  (∀ a, a ∈ ASSETS →
        ∃ r, Scenario.varying (GET a) = Fulfilled r ∧ acceptable r = true) ∧
  phase (play [(Scenario.varying, Install); (Scenario.offline, Activate)]
           (mkLayer UNINSTALLED Scenario.fresh)) = ACTIVE ∧
  effects (world (play [(Scenario.varying, Install); (Scenario.offline, Activate)]
                    (mkLayer UNINSTALLED Scenario.fresh)))
  = effects Scenario.fresh ++ bring_up_trace.
Proof.
  assert (∀ a, a ∈ ASSETS →
               ∃ r, Scenario.varying (GET a) = Fulfilled r ∧ acceptable r = true)
    as Hall.
  { intros a _. eexists. split; [reflexivity|]. vm_compute. reflexivity. }
  split; [exact Hall|].
  exact (X7_bring_up Scenario.varying Scenario.offline Scenario.fresh Hall).
Defined.
(** ** Properties of the dashboard *)

Import Dashboard.

(** *** Permissions *)

Lemma perms_lookup (role : string) :
  (list_to_map perms : gmap string (list string)) !! role =
  if decide (role = "Admin") then Some ["view_all"; "edit_all"; "finance"; "manage_users"]
  else if decide (role = "Accountant") then Some ["finance"; "view_projects"]
  else if decide (role = "Engineer") then Some ["view_projects"; "edit_projects"]
  else if decide (role = "Worker") then Some ["view_own_tasks"]
  else None.
Proof.
  unfold perms. cbn [list_to_map foldr fst snd uncurry].
  repeat (case_decide; [subst; by vm_compute|]).
  rewrite !lookup_insert_ne by done. apply lookup_empty.
Qed.

(** X8.  The three permissions the component asks for: the controls for
    adding an employee are shown to an Admin only, those for creating or
    editing a project to an Engineer only (not to an Admin, whose
    [edit_all] is not consulted), and those for adding a transaction to
    an Admin or an Accountant only; without a current user none is. *)
Theorem X8_gates_of_the_component (cu : option User.t) :
  (shown (can cu "manage_users") = true ↔
     ∃ u, cu = Some u ∧ User.role u = "Admin") ∧
  (shown (can cu "edit_projects") = true ↔
     ∃ u, cu = Some u ∧ User.role u = "Engineer") ∧
  (shown (can cu "finance") = true ↔
     ∃ u, cu = Some u ∧ (User.role u = "Admin" ∨ User.role u = "Accountant")).
Proof.
  destruct cu as [[i n r e]|]; cbn [can shown User.role].
  - rewrite perms_lookup.
    destruct (decide (r = "Admin")) as [->|NAd];
      [|destruct (decide (r = "Accountant")) as [->|NAc];
        [|destruct (decide (r = "Engineer")) as [->|NEn];
          [|destruct (decide (r = "Worker")) as [->|NWo];
            [|destruct (bool_decide (r ∈ inherited_names))]]]];
      (split; [|split]);
      (split;
       [ intros Hs; vm_compute in Hs;
         first [ discriminate Hs | eexists; split; [reflexivity | cbn; auto] ]
       | intros (u & [= <-] & Hu); cbn in Hu; vm_compute;
         first [ reflexivity | exfalso; intuition congruence ] ]).
  - repeat split; try (intros; discriminate); by intros (u & ? & _).
Qed.

(** *** Strings *)

Lemma string_app_assoc (s1 s2 s3 : string) :
  (s1 +:+ s2) +:+ s3 = s1 +:+ (s2 +:+ s3).
Proof.
  induction s1 as [|a s1 IH]; [done|].
  change (String a ((s1 +:+ s2) +:+ s3) = String a (s1 +:+ (s2 +:+ s3))).
  by rewrite IH.
Qed.

Lemma string_app_nil_r (s : string) : s +:+ "" = s.
Proof.
  induction s as [|a s IH]; [done|].
  change (String a (s +:+ "") = String a s). by rewrite IH.
Qed.

Section DashboardFacts.
Context {number : Type}.
Variable plus minus : number → number → number.
Variable zero : number.
Variable show : number → string.

(** *** Totals and the add handlers *)

(** X9.  A transaction that is added changes a total only through its
    type: the income is as before unless the type is Income, the expense
    is as before unless the type is Expense, a transaction of any other
    type leaves the profit as it was too, and the counts of projects and
    employees never change. *)
Theorem X9_totals_follow_the_type
    (now : Z) (tr : Transaction.t number) (st : State number) :
  let before := totals number plus minus zero st in
  let after := totals number plus minus zero (addTransaction number now tr st) in
  (Transaction.type tr ≠ "Income" → income _ after = income _ before) ∧
  (Transaction.type tr ≠ "Expense" → expense _ after = expense _ before) ∧
  (Transaction.type tr ≠ "Income" → Transaction.type tr ≠ "Expense" →
     profit _ after = profit _ before) ∧
  projects_count _ after = projects_count _ before ∧
  employees_count _ after = employees_count _ before.
Proof.
  cbv zeta. unfold totals, addTransaction.
  cbn [income expense profit projects_count employees_count transactions projects users].
  repeat split.
  - intros Hi. by rewrite filter_cons_False.
  - intros He. by rewrite filter_cons_False.
  - intros Hi He. by rewrite !filter_cons_False.
Qed.

(** X10.  The project shown for a transaction after a project was added:
    it is the one shown before unless the new project's identifier (the
    time of the addition) is the transaction's [projectId], in which case
    the new project's name is shown, before any older project with that
    identifier. *)
Theorem X10_label_after_addProject
    (now : Z) (p : Project.t number) (st : State number) (t : Transaction.t number) :
  let ps' := projects _ (addProject number now p st) in
  (Transaction.projectId t ≠ Some now →
     project_label number ps' t = project_label number (projects _ st) t) ∧
  (Transaction.projectId t = Some now →
     project_label number ps' t = Project.name p).
Proof.
  cbv zeta. unfold project_label, addProject. cbn [projects find Project.id Project.name].
  split; intros Hid.
  - by rewrite bool_decide_eq_false_2.
  - by rewrite bool_decide_eq_true_2.
Qed.

(** *** The CSV export *)

Lemma exportCSV_text_cons (first : Row number) (rows : list (Row number)) :
  exportCSV_text number show (first :: rows) =
  String.concat (newline)
    (String.concat "," (Object_keys number first)
     :: map (fun r => String.concat ","
                        (map (fun k => quoted (cell_text number show (prop number r k)))
                           (Object_keys number first)))
          (first :: rows)).
Proof. reflexivity. Qed.

Lemma csv_lines_ext (keys : list string) (rows rows' : list (Row number)) :
  Forall2 (fun r r' => ∀ k, k ∈ keys →
             cell_text number show (prop number r k)
             = cell_text number show (prop number r' k)) rows rows' →
  map (fun r => String.concat ","
                  (map (fun k => quoted (cell_text number show (prop number r k))) keys)) rows
  = map (fun r => String.concat ","
                    (map (fun k => quoted (cell_text number show (prop number r k))) keys)) rows'.
Proof.
  induction 1 as [|r r' rows rows' Hr _ IH]; simpl; [done|].
  rewrite IH. do 2 f_equal.
  apply map_ext_in. intros k Hk%list_elem_of_In. by rewrite Hr.
Qed.

(** X11.  The export reads the rows after the first only through the
    fields the first row has: two tables with the same first row, whose
    later rows give the same text for each of these fields, give the same
    file.  A field the first row lacks is left out, and a missing field,
    [null] and the empty string are all written as an empty cell. *)
Theorem X11_export_reads_the_first_row_fields
    (first : Row number) (rows rows' : list (Row number)) :
  Forall2 (fun r r' => ∀ k, k ∈ Object_keys number first →
             cell_text number show (prop number r k)
             = cell_text number show (prop number r' k)) rows rows' →
  exportCSV_text number show (first :: rows) = exportCSV_text number show (first :: rows').
Proof.
  intros H. rewrite !exportCSV_text_cons. cbn [map].
  by rewrite (csv_lines_ext _ _ _ H).
Qed.

(** X12.  The order of the fields of a row after the first does not
    matter: the cells are looked up by the names of the header, so a row
    that lists the same fields in another order (a record the add handler
    put its [id] on last) is written under the right columns. *)
Theorem X12_export_ignores_field_order
    (first : Row number) (rows rows' : list (Row number)) :
  Forall2 (fun r r' => NoDup (Object_keys number r) ∧ r ≡ₚ r') rows rows' →
  exportCSV_text number show (first :: rows) = exportCSV_text number show (first :: rows').
Proof.
  intros H. rewrite !exportCSV_text_cons. cbn [map].
  rewrite (csv_lines_ext (Object_keys number first) rows rows'); [done|].
  eapply Forall2_impl; [exact H|].
  intros r r' [Hnd Hperm] k _. unfold prop.
  by rewrite (list_to_map_proper r r' Hnd Hperm).
Qed.

(** X13.  Nothing is escaped.  For a table of one row with two string
    fields, whose names are not array indices, the text is the header and
    the two values between double quotes, each written exactly as it is,
    double quotes and commas included.  So two different tables with the
    same two fields give the same file, the end of the first cell being
    read in the one from the value and in the other from the separator. *)
Theorem X13_export_does_not_escape (k1 k2 v1 v2 x y z : string) :
  k1 ≠ k2 →
  array_index k1 = false →
  array_index k2 = false →
  exportCSV_text number show [[(k1, Str number v1); (k2, Str number v2)]]
  = k1 +:+ "," +:+ k2 +:+ newline
    +:+ dquote +:+ v1 +:+ dquote +:+ "," +:+ dquote +:+ v2 +:+ dquote
  ∧
  let inside := dquote +:+ "," +:+ dquote in
  let t1 : list (Row number) :=
    [[(k1, Str number (x +:+ inside +:+ y)); (k2, Str number z)]] in
  let t2 : list (Row number) :=
    [[(k1, Str number x); (k2, Str number (y +:+ inside +:+ z))]] in
  t1 ≠ t2 ∧ exportCSV_text number show t1 = exportCSV_text number show t2.
Proof.
  intros Hk _ _.
  assert (∀ a b : string,
            exportCSV_text number show [[(k1, Str number a); (k2, Str number b)]]
            = k1 +:+ "," +:+ k2 +:+ newline
              +:+ dquote +:+ a +:+ dquote +:+ "," +:+ dquote +:+ b +:+ dquote) as Htext.
  { intros a b. rewrite exportCSV_text_cons. unfold Object_keys, prop.
    cbn [map fmap list_fmap fst snd list_to_map foldr uncurry].
    rewrite !(lookup_insert_ne _ k1 k2) by done. rewrite !lookup_insert_eq.
    cbn [cell_text String.concat]. unfold quoted.
    by rewrite !string_app_assoc. }
  split; [apply Htext|]. cbv zeta. split.
  - intros [= E]. rewrite <- (string_app_nil_r x) in E at 2.
    apply (inj (String.app x)) in E. discriminate E.
  - rewrite !Htext. by rewrite !string_app_assoc.
Qed.

End DashboardFacts.

(** *** The properties on the sample data *)

Lemma X9_totals_witness :
  income _ (totals Z Z.add Z.sub 0%Z
              (addTransaction Z 1762000000000
                 (Transaction.mk 0 "Expense" "Labour" 3500%Z "2025-11-02" "" None)
                 Sample.initial))
  = income _ (totals Z Z.add Z.sub 0%Z Sample.initial).
Proof.
  apply (X9_totals_follow_the_type Z.add Z.sub 0%Z 1762000000000
           (Transaction.mk 0 "Expense" "Labour" 3500%Z "2025-11-02" "" None)
           Sample.initial).
  discriminate.
Defined.

Lemma X10_label_witness :
  project_label Z
    (projects _ (addProject Z 1762000000000
                   (Project.mk 0 "Villa 3 - Kitchen" "Mrs. Dina" "Planned" 90000%Z
                      "" "" "Omar Fahmy")
                   Sample.initial))
    (Transaction.mk 5001 "Expense" "Materials" 12000%Z "2025-10-20"
       "Tiles + adhesives" (Some 101%Z))
  = "Flat 12B - Fitout".
Proof.
  rewrite (proj1 (X10_label_after_addProject 1762000000000
                    (Project.mk 0 "Villa 3 - Kitchen" "Mrs. Dina" "Planned" 90000%Z
                       "" "" "Omar Fahmy")
                    Sample.initial
                    (Transaction.mk 5001 "Expense" "Materials" 12000%Z "2025-10-20"
                       "Tiles + adhesives" (Some 101%Z))))
    by discriminate.
  reflexivity.
Defined.

Lemma X11_export_witness :
  exportCSV_text Z Sample.show
    [Sample.user_row (User.mk 1 "Ahmed Salah" "Admin" "ahmed@company.com");
     Sample.user_row (User.mk 2 "Mona Khaled" "Accountant" "")]
  = exportCSV_text Z Sample.show
      [Sample.user_row (User.mk 1 "Ahmed Salah" "Admin" "ahmed@company.com");
       [("phone", Str Z "0100"); ("id", Num Z 2%Z); ("name", Str Z "Mona Khaled");
        ("role", Str Z "Accountant"); ("email", Null Z)]].
Proof.
  apply (X11_export_reads_the_first_row_fields Sample.show).
  constructor; [|constructor].
  intros k Hk. apply list_elem_of_In in Hk. simpl in Hk.
  destruct Hk as [<-|[<-|[<-|[<-|[]]]]]; vm_compute; reflexivity.
Defined.

Lemma X12_export_witness :
  exportCSV_text Z Sample.show
    (Sample.added_user_row (User.mk 1762000000000 "Sara Adel" "Worker" "sara@company.com")
     :: map Sample.user_row Sample.sampleUsers)
  = exportCSV_text Z Sample.show
      (Sample.added_user_row (User.mk 1762000000000 "Sara Adel" "Worker" "sara@company.com")
       :: map Sample.added_user_row Sample.sampleUsers).
Proof.
  apply (X12_export_ignores_field_order Sample.show).
  unfold Sample.sampleUsers. cbn [map].
  repeat (constructor;
          [split; [apply (bool_decide_unpack _); vm_compute; exact I
                  |unfold Sample.user_row, Sample.added_user_row;
                   apply (Permutation_cons_append [_; _; _])]|]).
  constructor.
Defined.

Lemma X13_export_witness :
  "name" ≠ "email" ∧ array_index "name" = false ∧ array_index "email" = false ∧
  exportCSV_text Z Sample.show
    [[("name", Str Z ("Mona" +:+ (dquote +:+ "," +:+ dquote) +:+ "Khaled"));
      ("email", Str Z "mona@company.com")]]
  = "name,email" +:+ newline
    +:+ dquote +:+ ("Mona" +:+ (dquote +:+ "," +:+ dquote) +:+ "Khaled") +:+ dquote
    +:+ "," +:+ dquote +:+ "mona@company.com" +:+ dquote ∧
  exportCSV_text Z Sample.show
    [[("name", Str Z ("Mona" +:+ (dquote +:+ "," +:+ dquote) +:+ "Khaled"));
      ("email", Str Z "mona@company.com")]]
  = exportCSV_text Z Sample.show
      [[("name", Str Z "Mona");
        ("email", Str Z ("Khaled" +:+ (dquote +:+ "," +:+ dquote) +:+ "mona@company.com"))]].
Proof.
  assert ("name" ≠ "email") as Hk by discriminate.
  split; [exact Hk|]. split; [reflexivity|]. split; [reflexivity|].
  split.
  - exact (proj1 (X13_export_does_not_escape (number := Z) Sample.show
                    "name" "email"
                    ("Mona" +:+ (dquote +:+ "," +:+ dquote) +:+ "Khaled")
                    "mona@company.com" "" "" "" Hk eq_refl eq_refl)).
  - exact (proj2 (proj2 (X13_export_does_not_escape (number := Z) Sample.show
                           "name" "email" "" "" "Mona" "Khaled" "mona@company.com"
                           Hk eq_refl eq_refl))).
Defined.
